(** * lb5: Strategy, Chain of Responsibility and Visitor

    A shallow embedding of [lb5.cpp].  The three pattern demonstrations of
    the program are embedded one module per C++ class, with the names of the
    member functions kept:

    - the console ([std::cout]) is a list of the strings written, one entry
      per output statement, oldest first;
    - objects reached through smart pointers live in a store
      ([gmap loc _]) indexed by their address; a smart or raw pointer is an
      [option loc], [None] being the empty (null) pointer;
    - a virtual call looks the receiver up in the store and branches on its
      dynamic class; a call through a null or dead pointer has no defined
      result and is [None];
    - [Handler::handle] recurses along the [next] links, which may form a
      cycle, so its embedding carries a bound on the call depth. *)

From Stdlib Require Import String Ascii.
From stdpp Require Import base option list gmap strings.

Open Scope string_scope.
Open Scope list_scope.

(** ** Console *)

Definition Console := list string.

(** The character written by the escape [\n]. *)
Definition nl : string := String (Ascii.ascii_of_nat 10) EmptyString.

(** One output statement [std::cout << ... ;] whose operands concatenate
    to [s]. *)
Definition print (s : string) (out : Console) : Console := out ++ [s].

(** Addresses of heap objects. *)
Definition loc := positive.

(** ** Strategy pattern *)

(** [class ProcessingStrategy]: the interface has the single virtual member
    [process].  An implementation writes to the console and, being user
    code behind a virtual call, may fail to complete ([None]). *)
Record ProcessingStrategy := {
  process : string -> Console -> option Console
}.

Definition PrintStrategy : ProcessingStrategy :=
  {| process := fun docType out =>
       Some (print ("[Strategy] Printing " +:+ docType +:+ " document..." +:+ nl) out) |}.

Definition SaveStrategy : ProcessingStrategy :=
  {| process := fun docType out =>
       Some (print ("[Strategy] Saving " +:+ docType +:+ " document..." +:+ nl) out) |}.

Module DocumentProcessor.

(** [std::unique_ptr<ProcessingStrategy> strategy;] *)
Record t := { strategy : option ProcessingStrategy }.

(** The implicit default constructor: the [unique_ptr] member is empty. *)
Definition new : t := {| strategy := None |}.

(** [strategy = std::move(s);] the argument may itself be empty. *)
Definition setStrategy (s : option ProcessingStrategy) (p : t) : t :=
  {| strategy := s |}.

Definition no_strategy_notice : string := "No strategy selected." +:+ nl.

Definition executeStrategy (docType : string) (p : t) (out : Console)
  : option Console :=
  match strategy p with
  | Some s => process s docType out
  | None => Some (print no_strategy_notice out)
  end.

End DocumentProcessor.

(** ** Chain of Responsibility *)

Module Handler.

(** The two concrete subclasses of [class Handler]. *)
Inductive class := FormatChecker | SecurityChecker.

(** A handler object: its dynamic class and the inherited member
    [std::shared_ptr<Handler> next;]. *)
Record obj := Obj { cls : class; next : option loc }.

(** The handler objects alive, and the console. *)
Record state := State { heap : gmap loc obj; cout : Console }.

Definition say (s : string) (st : state) : state :=
  State (heap st) (print s (cout st)).

(** [std::make_shared<C>()]: a new object at an unused address, with an
    empty [next]. *)
Definition make_shared (c : class) (h : gmap loc obj) : loc * gmap loc obj :=
  let l := fresh (dom h) in (l, <[l := Obj c None]> h).

(** [this->setNext(n)]: [next = n;]. *)
Definition setNext (n : option loc) (this : loc) (h : gmap loc obj)
  : option (gmap loc obj) :=
  o ← h !! this; Some (<[this := Obj (cls o) n]> h).

(** [docType == "PDF" || docType == "TXT" || docType == "DOCX"] *)
Definition recognized (docType : string) : bool :=
  (docType =? "PDF")%string || (docType =? "TXT")%string
  || (docType =? "DOCX")%string.

Definition checking_line (docType : string) : string :=
  "[Chain] Checking format of " +:+ docType +:+ "..." +:+ nl.

Definition not_supported_line : string := "Format not supported." +:+ nl.

Definition security_line (docType : string) : string :=
  "[Chain] Security check passed for " +:+ docType +:+ "." +:+ nl.

(** [this->handle(docType)], the virtual call: [FormatChecker::handle] or
    [SecurityChecker::handle] by the class of the object at [this].
    [depth] bounds the number of nested [handle] calls. *)
Fixpoint handle (depth : nat) (this : loc) (docType : string) (st : state)
  : option (bool * state) :=
  match depth with
  | O => None
  | S depth' =>
      o ← heap st !! this;
      match cls o with
      | FormatChecker =>
          let st1 := say (checking_line docType) st in
          if recognized docType then
            match next o with
            | Some n => handle depth' n docType st1
            | None => Some (true, st1)
            end
          else Some (false, say not_supported_line st1)
      | SecurityChecker =>
          let st1 := say (security_line docType) st in
          match next o with
          | Some n => handle depth' n docType st1
          | None => Some (true, st1)
          end
      end
  end.

(** The chain starting at an object ends, after [k] objects, at one whose
    [next] is empty. *)
Inductive chain_ends (h : gmap loc obj) : loc -> nat -> Prop :=
| chain_last c o :
    h !! c = Some o -> next o = None -> chain_ends h c 1
| chain_link c o n k :
    h !! c = Some o -> next o = Some n -> chain_ends h n k ->
    chain_ends h c (S k).

End Handler.

(** ** Visitor pattern *)

(** The concrete subclasses of [class Document]; neither has data members,
    so an object is its dynamic class. *)
Inductive Document := PDFDocument | TXTDocument.

Definition getType (d : Document) : string :=
  match d with PDFDocument => "PDF" | TXTDocument => "TXT" end.

(** [class Visitor]: the two overloads of [visit], named by their parameter
    type here.  Each receives the address of the document ([doc]) and acts
    on the state [S] the visitor works on. *)
Record Visitor (S : Type) := {
  visit_PDFDocument : loc -> S -> S;
  visit_TXTDocument : loc -> S -> S
}.
Arguments visit_PDFDocument {S}.
Arguments visit_TXTDocument {S}.

Definition DisplayVisitor : Visitor Console :=
  {| visit_PDFDocument := fun _ out =>
       print ("[Visitor] Displaying PDF content." +:+ nl) out;
     visit_TXTDocument := fun _ out =>
       print ("[Visitor] Displaying TXT content." +:+ nl) out |}.

(** [doc->accept(v)] on the object of class [d] at [this]:
    [PDFDocument::accept] and [TXTDocument::accept] are both
    [v.visit( *this )], resolved to the overload of their own class. *)
Definition accept {S} (d : Document) (this : loc) (v : Visitor S) (s : S) : S :=
  match d with
  | PDFDocument => visit_PDFDocument v this s
  | TXTDocument => visit_TXTDocument v this s
  end.

(** [std::make_unique<D>()]. *)
Definition make_unique (d : Document) (mem : gmap loc Document)
  : option loc * gmap loc Document :=
  let l := fresh (dom mem) in (Some l, <[l := d]> mem).

Module DocumentStructure.

(** [std::vector<std::unique_ptr<Document>> docs;] *)
Record t := { docs : list (option loc) }.

Definition new : t := {| docs := [] |}.

(** [docs.push_back(std::move(doc));] *)
Definition add (doc : option loc) (this : t) : t :=
  {| docs := docs this ++ [doc] |}.

(** [for (auto& doc : docs) doc->accept(v);] over the remaining
    elements. *)
Fixpoint process_loop {S} (v : Visitor S) (mem : gmap loc Document)
    (ds : list (option loc)) (s : S) : option S :=
  match ds with
  | [] => Some s
  | doc :: rest =>
      p ← doc; d ← mem !! p;
      process_loop v mem rest (accept d p v s)
  end.

Definition process {S} (v : Visitor S) (mem : gmap loc Document)
    (this : t) (s : S) : option (t * S) :=
  s' ← process_loop v mem (docs this) s; Some (this, s').

(** [for (auto& d : docs) result.push_back(d.get());] *)
Fixpoint getAll_loop (ds : list (option loc)) (result : list (option loc))
  : list (option loc) :=
  match ds with
  | [] => result
  | d :: rest => getAll_loop rest (result ++ [d])
  end.

Definition getAll (this : t) : list (option loc) * t :=
  (getAll_loop (docs this) [], this).

End DocumentStructure.

(** ** The demonstration *)

(** Lines 147-149 of [main]: the chain [FormatChecker -> SecurityChecker]. *)
Definition main_chain : option (loc * gmap loc Handler.obj) :=
  let '(checker1, h1) := Handler.make_shared Handler.FormatChecker ∅ in
  let '(checker2, h2) := Handler.make_shared Handler.SecurityChecker h1 in
  h3 ← Handler.setNext (Some checker2) checker1 h2; Some (checker1, h3).

(** The objects [main_chain] ends with, spelled out. *)
Definition main_chain_heap : gmap loc Handler.obj :=
  <[1%positive := Handler.Obj Handler.FormatChecker (Some 2%positive)]>
    (<[2%positive := Handler.Obj Handler.SecurityChecker None]> ∅).

(** Lines 163-165 of [main]. *)
Definition main_structure : gmap loc Document * DocumentStructure.t :=
  let structure := DocumentStructure.new in
  let '(d1, m1) := make_unique PDFDocument ∅ in
  let structure := DocumentStructure.add d1 structure in
  let '(d2, m2) := make_unique TXTDocument m1 in
  let structure := DocumentStructure.add d2 structure in
  (m2, structure).

(** [main], up to the final prompt; the result is the console. *)
Definition main : option Console :=
  '(checker1, h) ← main_chain;
  let docType := "PDF" in
  '(ok, st) ← Handler.handle 2 checker1 docType (Handler.State h []);
  out ← (if ok : bool then
           let processor := DocumentProcessor.new in
           let processor :=
             DocumentProcessor.setStrategy (Some PrintStrategy) processor in
           DocumentProcessor.executeStrategy docType processor (Handler.cout st)
         else Some (Handler.cout st));
  let out := print ("------------------------" +:+ nl) out in
  let '(mem, structure) := main_structure in
  '(_, out) ← DocumentStructure.process DisplayVisitor mem structure out;
  Some out.

(** ** Call sequences and observers *)

(** A sequence of [setStrategy] calls, oldest first. *)
Definition setStrategy_all (calls : list (option ProcessingStrategy))
    (p : DocumentProcessor.t) : DocumentProcessor.t :=
  foldl (fun p s => DocumentProcessor.setStrategy s p) p calls.

(** A sequence of [add] calls, oldest first. *)
Definition add_all (ptrs : list (option loc)) (s : DocumentStructure.t)
  : DocumentStructure.t :=
  foldl (fun s doc => DocumentStructure.add doc s) s ptrs.

(** [structure.add(std::make_unique<D>());] as in [main], and a sequence of
    such statements. *)
Definition add_new (d : Document)
    (ms : gmap loc Document * DocumentStructure.t)
  : gmap loc Document * DocumentStructure.t :=
  let '(doc, mem) := make_unique d ms.1 in (mem, DocumentStructure.add doc ms.2).

Definition add_new_all (ds : list Document)
    (ms : gmap loc Document * DocumentStructure.t)
  : gmap loc Document * DocumentStructure.t :=
  foldl (fun ms d => add_new d ms) ms ds.

(** A pointer to a live document of class [d]. *)
Definition points_to (mem : gmap loc Document) (doc : option loc)
    (d : Document) : Prop :=
  exists p, doc = Some p /\ mem !! p = Some d.

(** One call of a [visit] overload: which one, and on which document. *)
Inductive visit_call := VisitPDF (doc : loc) | VisitTXT (doc : loc).

(** A visitor that records the calls it receives, oldest first. *)
Definition RecordingVisitor : Visitor (list visit_call) :=
  {| visit_PDFDocument := fun doc log => log ++ [VisitPDF doc];
     visit_TXTDocument := fun doc log => log ++ [VisitTXT doc] |}.

(** Making the calls of a list on a visitor, in order. *)
Definition replay {S} (v : Visitor S) (calls : list visit_call) (s : S) : S :=
  foldl (fun s c =>
           match c with
           | VisitPDF doc => visit_PDFDocument v doc s
           | VisitTXT doc => visit_TXTDocument v doc s
           end) s calls.

(** The call owed to a member of the collection: the overload of its own
    class, on itself. *)
Definition call_of (mem : gmap loc Document) (doc : option loc)
  : option visit_call :=
  p ← doc; d ← mem !! p;
  Some (match d with PDFDocument => VisitPDF p | TXTDocument => VisitTXT p end).

(** Every member of the collection points to a live document. *)
Definition live (mem : gmap loc Document) (s : DocumentStructure.t) : Prop :=
  Forall (fun doc => exists d, points_to mem doc d) (DocumentStructure.docs s).

(** ** Chains of handlers *)

(** The line a handler of a given class writes first. *)
Definition first_line (docType : string) (k : Handler.class) : string :=
  match k with
  | Handler.FormatChecker => Handler.checking_line docType
  | Handler.SecurityChecker => Handler.security_line docType
  end.

(** A walk along the [next] links: the objects met from a first one, each
    with its class, and the [next] of the last object met. *)
Inductive walk (h : gmap loc Handler.obj)
  : loc -> list (loc * Handler.class) -> option loc -> Prop :=
| walk_one c o :
    h !! c = Some o -> walk h c [(c, Handler.cls o)] (Handler.next o)
| walk_cons c o n ps e :
    h !! c = Some o -> Handler.next o = Some n -> walk h n ps e ->
    walk h c ((c, Handler.cls o) :: ps) e.

Definition is_security (pc : loc * Handler.class) : bool :=
  match pc.2 with Handler.SecurityChecker => true | Handler.FormatChecker => false end.

(** The lines the handlers of a walk write first, in order. *)
Definition first_lines (docType : string) (ps : list (loc * Handler.class))
  : list string :=
  map (fun pc => first_line docType pc.2) ps.

(** A [SecurityChecker] whose [next] is itself. *)
Definition self_loop_heap : gmap loc Handler.obj :=
  <[1%positive := Handler.Obj Handler.SecurityChecker (Some 1%positive)]> ∅.

(** A [SecurityChecker] and a [FormatChecker] linked to each other. *)
Definition cyclic_pair_heap : gmap loc Handler.obj :=
  <[1%positive := Handler.Obj Handler.SecurityChecker (Some 2%positive)]>
    (<[2%positive := Handler.Obj Handler.FormatChecker (Some 1%positive)]> ∅).

(** ** Lines of [DisplayVisitor] *)

Definition display_line (d : Document) : string :=
  "[Visitor] Displaying " +:+ getType d +:+ " content." +:+ nl.

(** * Properties *)

(** ** Strategy selector *)

Section Strategy.
Import DocumentProcessor.

Lemma setStrategy_all_snoc calls s p :
  setStrategy_all (calls ++ [s]) p = setStrategy s (setStrategy_all calls p).
Proof. unfold setStrategy_all. by rewrite foldl_app. Qed.

Lemma strategy_setStrategy_all calls p :
  strategy (setStrategy_all calls p) = default (strategy p) (last calls).
Proof.
  induction calls as [|s calls IH] using rev_ind; [done|].
  by rewrite setStrategy_all_snoc, last_snoc.
Qed.

Lemma print_strategy_not_notice docType out out' :
  process PrintStrategy docType out <> Some (print no_strategy_notice out').
Proof.
  simpl. unfold print. intros [= H].
  apply (f_equal last) in H. rewrite !last_snoc in H. discriminate H.
Qed.

Lemma save_strategy_not_notice docType out out' :
  process SaveStrategy docType out <> Some (print no_strategy_notice out').
Proof.
  simpl. unfold print. intros [= H].
  apply (f_equal last) in H. rewrite !last_snoc in H. discriminate H.
Qed.

(** C4: after any sequence of [setStrategy] calls the slot holds exactly
    the argument of the last call (or the initial content when there was
    no call), so when the last call installs the strategy [s],
    [executeStrategy] is [s]'s [process] on the same document type and
    console, whatever was installed before. *)
Theorem setStrategy_last_write_wins :
  forall (calls : list (option ProcessingStrategy)) (p : t),
    strategy (setStrategy_all calls p) = default (strategy p) (last calls)
    /\ forall (s : ProcessingStrategy) (docType : string) (out : Console),
         setStrategy (Some s) (setStrategy_all calls p) = setStrategy (Some s) new
         /\ executeStrategy docType (setStrategy_all (calls ++ [Some s]) p) out
            = process s docType out.
Proof.
  intros calls p. split; [apply strategy_setStrategy_all|].
  intros s docType out. split; [done|].
  unfold executeStrategy. rewrite strategy_setStrategy_all, last_snoc. done.
Qed.

(** C5: with no strategy set, [executeStrategy] completes normally for
    every document type: the console gains the no-strategy notice and
    nothing else, which is no output of [PrintStrategy] or
    [SaveStrategy]. *)
Theorem executeStrategy_without_strategy :
  forall (p : t) (docType : string) (out : Console),
    strategy p = None ->
    executeStrategy docType p out = Some (out ++ [no_strategy_notice])
    /\ (forall t' out', process PrintStrategy t' out'
                        <> executeStrategy docType p out)
    /\ (forall t' out', process SaveStrategy t' out'
                        <> executeStrategy docType p out).
Proof.
  intros p docType out Hp. unfold executeStrategy. rewrite Hp.
  split; [done|]. split; intros t' out'.
  - apply print_strategy_not_notice.
  - apply save_strategy_not_notice.
Qed.

Lemma executeStrategy_without_strategy_witness :
  strategy (setStrategy None (setStrategy (Some SaveStrategy) new)) = None
  /\ executeStrategy "PDF" (setStrategy None (setStrategy (Some SaveStrategy) new)) []
     = Some [no_strategy_notice].
Proof.
  split; [reflexivity|].
  apply (executeStrategy_without_strategy
           (setStrategy None (setStrategy (Some SaveStrategy) new)) "PDF" []).
  reflexivity.
Defined.

(** C9: a newly constructed [DocumentProcessor] holds no strategy, and
    [executeStrategy] on it takes the no-strategy branch for every
    document type: the console gains the notice only. *)
Theorem new_processor_has_no_strategy :
  strategy new = None
  /\ forall (docType : string) (out : Console),
       executeStrategy docType new out = Some (out ++ [no_strategy_notice]).
Proof. split; reflexivity. Qed.

End Strategy.

(** ** Chain of Responsibility *)

Section Chain.
Import Handler.

Implicit Types (h : gmap loc obj) (st : state) (c : loc) (t : string).

Lemma recognized_spec t :
  recognized t = true <-> t = "PDF" \/ t = "TXT" \/ t = "DOCX".
Proof.
  unfold recognized. rewrite !orb_true_iff, !String.eqb_eq. tauto.
Qed.

Lemma handle_unfold depth c t st o :
  heap st !! c = Some o ->
  handle (S depth) c t st =
    match cls o with
    | FormatChecker =>
        if recognized t then
          match next o with
          | Some n => handle depth n t (say (checking_line t) st)
          | None => Some (true, say (checking_line t) st)
          end
        else Some (false, say not_supported_line (say (checking_line t) st))
    | SecurityChecker =>
        match next o with
        | Some n => handle depth n t (say (security_line t) st)
        | None => Some (true, say (security_line t) st)
        end
    end.
Proof. intros Ho. simpl. rewrite Ho. reflexivity. Qed.

(** Case analysis on one [handle] call that returned. *)
Ltac handle_cases H o Ho :=
  match type of H with
  | handle (S ?d) ?c ?t ?st = Some _ =>
      destruct (heap st !! c) as [o|] eqn:Ho; [|by simpl in H; rewrite Ho in H];
      rewrite (handle_unfold d c t st o Ho) in H
  end.

(** [handle] writes to the console only: the objects are as before. *)
Lemma handle_heap depth : forall c t st b st',
  handle depth c t st = Some (b, st') -> heap st' = heap st.
Proof.
  induction depth as [|depth IH]; intros c t st b st' H; [done|].
  handle_cases H o Ho.
  destruct (cls o), (recognized t), (next o) as [n|];
    try (apply IH in H; exact H); by inversion H.
Qed.

(** The boolean returned does not depend on the console. *)
Lemma handle_console_irrelevant depth : forall c t st b st' out,
  handle depth c t st = Some (b, st') ->
  exists out', handle depth c t (State (heap st) out)
               = Some (b, State (heap st) out').
Proof.
  induction depth as [|depth IH]; intros c t st b st' out H; [done|].
  handle_cases H o Ho.
  rewrite (handle_unfold depth c t (State (heap st) out) o Ho).
  destruct (cls o), (recognized t), (next o) as [n|];
    solve [ inversion H; subst; eexists; reflexivity
          | eapply (IH n t (say _ st) b st' (print _ out)), H ].
Qed.

(** A larger bound on the depth leaves a result unchanged. *)
Lemma handle_depth_mono depth : forall depth' c t st r,
  handle depth c t st = Some r -> depth <= depth' ->
  handle depth' c t st = Some r.
Proof.
  induction depth as [|depth IH]; intros depth' c t st [b st'] H Hle; [done|].
  destruct depth' as [|depth']; [lia|].
  handle_cases H o Ho.
  rewrite (handle_unfold depth' c t st o Ho).
  destruct (cls o), (recognized t), (next o) as [n|];
    try (apply IH; [exact H|lia]); exact H.
Qed.

(** A chain that ends is handled within a depth of its length. *)
Lemma handle_chain_ends h c k :
  chain_ends h c k ->
  forall t out depth, k <= depth ->
    is_Some (handle depth c t (State h out)).
Proof.
  induction 1 as [c o Ho Hn|c o n k Ho Hn _ IH]; intros t out depth Hle;
    (destruct depth as [|depth]; [lia|]);
    rewrite (handle_unfold depth c t (State h out) o Ho), Hn.
  - destruct (cls o), (recognized t); eauto.
  - destruct (cls o), (recognized t); eauto; apply IH; lia.
Qed.

(** On a recognized type no handler of any chain answers [false]. *)
Lemma handle_recognized depth : forall c t st b st',
  recognized t = true ->
  handle depth c t st = Some (b, st') -> b = true.
Proof.
  induction depth as [|depth IH]; intros c t st b st' Ht H; [done|].
  handle_cases H o Ho. rewrite Ht in H.
  destruct (cls o), (next o) as [n|];
    try (eapply IH; [exact Ht|exact H]); by inversion H.
Qed.

Lemma security_line_not_checking_line t t' :
  security_line t' <> checking_line t.
Proof. unfold security_line, checking_line. simpl. discriminate. Qed.

Lemma security_line_not_unsupported t' :
  security_line t' <> not_supported_line.
Proof. unfold security_line, not_supported_line. simpl. discriminate. Qed.

(** C1: on the chain of [main], a [FormatChecker] linked to a
    [SecurityChecker] that has no successor, [handle] returns for every
    document type, and returns [true] exactly when the type is "PDF",
    "TXT" or "DOCX". *)
Theorem chain_accepts_exactly_recognized :
  forall h c1 c2 t (out : Console) (depth : nat),
    h !! c1 = Some (Obj FormatChecker (Some c2)) ->
    h !! c2 = Some (Obj SecurityChecker None) ->
    2 <= depth ->
    exists b out',
      handle depth c1 t (State h out) = Some (b, State h out')
      /\ (b = true <-> t = "PDF" \/ t = "TXT" \/ t = "DOCX").
Proof.
  intros h c1 c2 t out depth H1 H2 Hd.
  destruct depth as [|[|depth]]; [lia..|].
  rewrite (handle_unfold _ c1 t (State h out) _ H1). simpl cls. simpl next.
  destruct (recognized t) eqn:Ht.
  - unfold say. simpl heap.
    rewrite (handle_unfold _ c2 t (State h _) _ H2). simpl.
    eexists true, _. split; [reflexivity|].
    rewrite <- recognized_spec. tauto.
  - eexists false, _. split; [reflexivity|].
    rewrite <- recognized_spec, Ht. split; discriminate.
Qed.

Lemma chain_accepts_exactly_recognized_witness :
  let h := main_chain_heap in
  main_chain = Some (1%positive, h)
  /\ exists b out',
       handle 2 1%positive "DOCX" (State h []) = Some (b, State h out')
       /\ (b = true <-> "DOCX" = "PDF" \/ "DOCX" = "TXT" \/ "DOCX" = "DOCX").
Proof.
  split; [vm_compute; reflexivity|].
  apply (chain_accepts_exactly_recognized
           main_chain_heap
           1%positive 2%positive "DOCX" [] 2).
  - vm_compute; reflexivity.
  - vm_compute; reflexivity.
  - lia.
Defined.

(** C2: a [FormatChecker] answers [false] exactly on the unrecognized
    types, and then it alone has run: whatever its [next] is, the call
    completes at depth one with the objects unchanged and the console
    extended by the two lines of [FormatChecker::handle], neither of which
    is the line every [SecurityChecker::handle] call writes first. *)
Theorem format_rejection_short_circuits :
  forall h c (n : option loc) t (out : Console),
    h !! c = Some (Obj FormatChecker n) ->
    let st2 := State h (out ++ [checking_line t; not_supported_line]) in
    (recognized t = false ->
     forall depth, handle (S depth) c t (State h out) = Some (false, st2))
    /\ (forall depth st',
          handle depth c t (State h out) = Some (false, st') ->
          recognized t = false /\ st' = st2
          /\ handle 1 c t (State h out) = Some (false, st'))
    /\ (forall t', security_line t' ∉ [checking_line t; not_supported_line]).
Proof.
  intros h c n t out Hc st2.
  assert (Hrej : recognized t = false ->
                 forall depth, handle (S depth) c t (State h out) = Some (false, st2)).
  { intros Ht depth. rewrite (handle_unfold _ c t (State h out) _ Hc).
    simpl cls. rewrite Ht. unfold say, print, st2. simpl.
    by rewrite <- app_assoc. }
  split; [exact Hrej|]. split.
  - intros depth st' H.
    destruct (recognized t) eqn:Ht.
    + apply (handle_recognized _ _ _ _ _ _ Ht) in H. discriminate H.
    + destruct depth as [|depth]; [done|].
      rewrite (Hrej eq_refl depth) in H. inversion H; subst st'.
      split; [done|]. split; [done|]. apply (Hrej eq_refl 0).
  - intros t' Hin. apply elem_of_cons in Hin as [Hin|Hin].
    + by apply security_line_not_checking_line in Hin.
    + apply list_elem_of_singleton in Hin.
      by apply security_line_not_unsupported in Hin.
Qed.

Lemma format_rejection_short_circuits_witness :
  let h := main_chain_heap in
  h !! 1%positive = Some (Obj FormatChecker (Some 2%positive))
  /\ recognized "XML" = false
  /\ handle 2 1%positive "XML" (State h [])
     = Some (false, State h [checking_line "XML"; not_supported_line]).
Proof.
  split; [vm_compute; reflexivity|]. split; [reflexivity|].
  apply (proj1 (format_rejection_short_circuits
                  main_chain_heap
                  1%positive (Some 2%positive) "XML" []
                  ltac:(vm_compute; reflexivity))).
  reflexivity.
Defined.

(** C6: [SecurityChecker::handle] makes no decision of its own on any
    document type: after its line is written, the call is the call to the
    next handler when there is one, and returns [true] otherwise; so a
    [false] it returns is the [false] its next handler returned. *)
Theorem security_checker_always_passes :
  forall h c (n : option loc) t (out : Console),
    h !! c = Some (Obj SecurityChecker n) ->
    (forall depth,
       handle (S depth) c t (State h out) =
         match n with
         | Some n' => handle depth n' t (State h (out ++ [security_line t]))
         | None => Some (true, State h (out ++ [security_line t]))
         end)
    /\ (forall depth st',
          handle depth c t (State h out) = Some (false, st') ->
          exists depth' n',
            depth = S depth' /\ n = Some n'
            /\ handle depth' n' t (State h (out ++ [security_line t]))
               = Some (false, st')).
Proof.
  intros h c n t out Hc.
  assert (Heq : forall depth,
             handle (S depth) c t (State h out) =
               match n with
               | Some n' => handle depth n' t (State h (out ++ [security_line t]))
               | None => Some (true, State h (out ++ [security_line t]))
               end).
  { intros depth. rewrite (handle_unfold _ c t (State h out) _ Hc). reflexivity. }
  split; [exact Heq|].
  intros [|depth] st' H; [done|].
  rewrite Heq in H. destruct n as [n'|]; [|discriminate H].
  by exists depth, n'.
Qed.

Lemma security_checker_always_passes_witness :
  main_chain_heap !! 2%positive = Some (Obj SecurityChecker None)
  /\ handle 1 2%positive "XML" (State main_chain_heap [])
     = Some (true, State main_chain_heap [security_line "XML"]).
Proof.
  assert (Hc : main_chain_heap !! 2%positive = Some (Obj SecurityChecker None))
    by (vm_compute; reflexivity).
  split; [exact Hc|].
  apply (proj1 (security_checker_always_passes
                  main_chain_heap 2%positive None "XML" [] Hc) 0).
Defined.

(** C10: [handle] changes no handler object, so a second call with the
    same document type returns the same boolean: whenever a call returns,
    the objects are as before and so is the answer of the call repeated;
    and on a chain that ends, at a depth of at least its length, both
    calls do return. *)
Theorem handle_preserves_chain :
  forall c t st,
    (forall depth b st1,
       handle depth c t st = Some (b, st1) ->
       heap st1 = heap st
       /\ exists st2, handle depth c t st1 = Some (b, st2)
                      /\ heap st2 = heap st)
    /\ (forall k depth,
          chain_ends (heap st) c k -> k <= depth ->
          exists b st1 st2,
            handle depth c t st = Some (b, st1)
            /\ heap st1 = heap st
            /\ handle depth c t st1 = Some (b, st2)
            /\ heap st2 = heap st).
Proof.
  intros c t st.
  assert (Hret : forall depth b st1,
             handle depth c t st = Some (b, st1) ->
             heap st1 = heap st
             /\ exists st2, handle depth c t st1 = Some (b, st2)
                            /\ heap st2 = heap st).
  { intros depth b st1 H.
    pose proof (handle_heap _ _ _ _ _ _ H) as Hh. split; [exact Hh|].
    destruct (handle_console_irrelevant _ _ _ _ _ _ (cout st1) H) as [out' H'].
    exists (State (heap st) out'). split; [|done].
    rewrite <- H'. f_equal. destruct st1 as [h1 o1]. simpl in *. by subst. }
  split; [exact Hret|].
  intros k depth Hk Hle.
  destruct st as [h out]. simpl in Hk.
  destruct (handle_chain_ends h c k Hk t out depth Hle) as [[b st1] H].
  destruct (Hret depth b st1 H) as [Hh [st2 [H2 Hh2]]].
  by exists b, st1, st2.
Qed.

Lemma handle_preserves_chain_witness :
  let h := main_chain_heap in
  chain_ends h 1%positive 2
  /\ exists b st1 st2,
       handle 2 1%positive "TXT" (State h []) = Some (b, st1)
       /\ heap st1 = h
       /\ handle 2 1%positive "TXT" st1 = Some (b, st2)
       /\ heap st2 = h.
Proof.
  assert (Hk : chain_ends
                 main_chain_heap
                 1%positive 2).
  { eapply chain_link; [vm_compute; reflexivity|reflexivity|].
    eapply chain_last; [vm_compute; reflexivity|reflexivity]. }
  split; [exact Hk|].
  apply (proj2 (handle_preserves_chain 1%positive "TXT"
                  (State main_chain_heap []))
           2 2 Hk).
  lia.
Defined.

End Chain.

(** ** Visitor dispatch *)

Section Visiting.
Import DocumentStructure.

Implicit Types (mem : gmap loc Document) (s : t) (doc : option loc).

Lemma add_all_docs ptrs s : docs (add_all ptrs s) = docs s ++ ptrs.
Proof.
  revert s. induction ptrs as [|doc ptrs IH]; intros s; simpl.
  - by rewrite app_nil_r.
  - rewrite IH. simpl. by rewrite <- app_assoc.
Qed.

Lemma getAll_loop_spec ds result : getAll_loop ds result = result ++ ds.
Proof.
  revert result. induction ds as [|d ds IH]; intros result; simpl.
  - by rewrite app_nil_r.
  - rewrite IH. by rewrite <- app_assoc.
Qed.

Lemma getAll_spec s : getAll s = (docs s, s).
Proof. unfold getAll. by rewrite getAll_loop_spec. Qed.

Lemma replay_snoc {S} (v : Visitor S) calls c st :
  replay v (calls ++ [c]) st = replay v [c] (replay v calls st).
Proof. unfold replay. by rewrite foldl_app. Qed.

Lemma replay_recording calls log : replay RecordingVisitor calls log = log ++ calls.
Proof.
  revert log. induction calls as [|c calls IH]; intros log.
  - by rewrite app_nil_r.
  - change (replay RecordingVisitor (c :: calls) log)
      with (replay RecordingVisitor calls (replay RecordingVisitor [c] log)).
    rewrite IH. destruct c; simpl; by rewrite <- app_assoc.
Qed.

Lemma accept_call_of mem p d :
  mem !! p = Some d ->
  exists c, call_of mem (Some p) = Some c
            /\ forall S (v : Visitor S) st, accept d p v st = replay v [c] st.
Proof.
  intros Hp. unfold call_of. simpl. rewrite Hp. simpl.
  destruct d; eexists; (split; [reflexivity|]); reflexivity.
Qed.

(** The loop of [process] makes, for each remaining member in order, the
    call owed to it. *)
Lemma process_loop_replay mem ds :
  Forall (fun doc => exists d, points_to mem doc d) ds ->
  exists calls,
    Forall2 (fun doc c => call_of mem doc = Some c) ds calls
    /\ forall S (v : Visitor S) st,
         process_loop v mem ds st = Some (replay v calls st).
Proof.
  induction 1 as [|doc ds [d [p [-> Hp]]] _ [calls [Hcalls IH]]].
  - exists []. split; [constructor|]. reflexivity.
  - destruct (accept_call_of mem p d Hp) as [c [Hc Hacc]].
    exists (c :: calls). split; [by constructor|].
    intros S v st. simpl. rewrite Hp. simpl. rewrite IH, Hacc. reflexivity.
Qed.

Lemma process_replay mem s :
  live mem s ->
  exists calls,
    Forall2 (fun doc c => call_of mem doc = Some c) (docs s) calls
    /\ forall S (v : Visitor S) st,
         process v mem s st = Some (s, replay v calls st).
Proof.
  intros Hlive. destruct (process_loop_replay mem (docs s) Hlive) as [calls [H2 H]].
  exists calls. split; [exact H2|].
  intros S v st. unfold process. rewrite H. reflexivity.
Qed.

Lemma points_to_insert_fresh mem doc d d' :
  points_to mem doc d -> points_to (<[fresh (dom mem) := d']> mem) doc d.
Proof.
  intros [p [-> Hp]]. exists p. split; [done|].
  rewrite lookup_insert_ne; [done|].
  intros <-. pose proof (is_fresh (dom mem)) as Hf.
  apply not_elem_of_dom in Hf. congruence.
Qed.

(** Inserting newly made documents keeps the members live, of the
    classes inserted, and pairwise distinct. *)
Lemma add_new_all_spec ds : forall mem s ds0,
  Forall2 (points_to mem) (docs s) ds0 -> NoDup (docs s) ->
  Forall2 (points_to (add_new_all ds (mem, s)).1)
          (docs (add_new_all ds (mem, s)).2) (ds0 ++ ds)
  /\ NoDup (docs (add_new_all ds (mem, s)).2).
Proof.
  induction ds as [|d ds IH]; intros mem s ds0 H2 Hnd.
  - simpl. by rewrite app_nil_r.
  - change (add_new_all (d :: ds) (mem, s))
      with (add_new_all ds (<[fresh (dom mem) := d]> mem,
                            add (Some (fresh (dom mem))) s)).
    replace (ds0 ++ d :: ds) with ((ds0 ++ [d]) ++ ds)
      by (by rewrite <- app_assoc).
    apply IH; simpl.
    + apply Forall2_app.
      * eapply Forall2_impl; [exact H2|].
        intros doc d'. apply points_to_insert_fresh.
      * constructor; [|constructor].
        exists (fresh (dom mem)). split; [done|]. apply lookup_insert_eq.
    + apply NoDup_app. split; [exact Hnd|]. split; [|apply NoDup_singleton].
      intros doc Hin Hin'. apply list_elem_of_singleton in Hin'. subst doc.
      apply list_elem_of_lookup_1 in Hin as [i Hi].
      destruct (Forall2_lookup_l _ _ _ _ _ H2 Hi) as [d' [_ [p [[= <-] Hp]]]].
      pose proof (is_fresh (dom mem)) as Hf.
      apply not_elem_of_dom in Hf. congruence.
Qed.

(** C3: on a collection whose members are live, [process] returns having
    made on the visitor, for each member in insertion order, exactly the
    call of the [visit] overload of that member's class, on that member;
    a recording visitor's log grows by exactly these calls.  On the
    collection of [main] the calls are the PDF overload on the first
    member, then the TXT overload on the second; on the empty collection
    no call is made. *)
Theorem process_visits_each_member_once :
  (forall mem s,
     live mem s ->
     exists calls,
       Forall2 (fun doc c => call_of mem doc = Some c) (docs s) calls
       /\ (forall S (v : Visitor S) st,
             process v mem s st = Some (s, replay v calls st))
       /\ (forall log,
             process RecordingVisitor mem s log = Some (s, log ++ calls)))
  /\ (forall S (v : Visitor S) st,
        process v main_structure.1 main_structure.2 st
        = Some (main_structure.2,
                visit_TXTDocument v 2%positive
                  (visit_PDFDocument v 1%positive st)))
  /\ process RecordingVisitor main_structure.1 main_structure.2 []
     = Some (main_structure.2, [VisitPDF 1%positive; VisitTXT 2%positive])
  /\ (forall mem S (v : Visitor S) st, process v mem new st = Some (new, st)).
Proof.
  split; [|split; [|split]].
  - intros mem s Hlive.
    destruct (process_replay mem s Hlive) as [calls [H2 H]].
    exists calls. split; [exact H2|]. split; [exact H|].
    intros log. by rewrite H, replay_recording.
  - intros S v st. vm_compute. reflexivity.
  - vm_compute. reflexivity.
  - reflexivity.
Qed.

Lemma main_structure_live : live main_structure.1 main_structure.2.
Proof.
  repeat constructor.
  - exists PDFDocument, 1%positive. split; vm_compute; reflexivity.
  - exists TXTDocument, 2%positive. split; vm_compute; reflexivity.
Defined.

Lemma process_visits_each_member_once_witness :
  live main_structure.1 main_structure.2
  /\ exists calls,
       Forall2 (fun doc c => call_of main_structure.1 doc = Some c)
               (docs main_structure.2) calls
       /\ (forall S (v : Visitor S) st,
             process v main_structure.1 main_structure.2 st
             = Some (main_structure.2, replay v calls st))
       /\ (forall log,
             process RecordingVisitor main_structure.1 main_structure.2 log
             = Some (main_structure.2, log ++ calls)).
Proof.
  split; [exact main_structure_live|].
  apply (proj1 process_visits_each_member_once
           main_structure.1 main_structure.2).
  exact main_structure_live.
Defined.

(** C7: [getAll] on a collection built by inserting pointers returns
    exactly those pointers, in insertion order, and the collection still
    holding them; when N newly made documents are inserted, the result has
    N pointers, pairwise distinct, the i-th pointing to the live i-th
    document. *)
Theorem getAll_returns_inserted :
  (forall ptrs : list (option loc),
     getAll (add_all ptrs new) = (ptrs, add_all ptrs new))
  /\ (forall mem0 (ds : list Document),
        exists refs,
          getAll (add_new_all ds (mem0, new)).2
          = (refs, (add_new_all ds (mem0, new)).2)
          /\ length refs = length ds
          /\ NoDup refs
          /\ Forall2 (points_to (add_new_all ds (mem0, new)).1) refs ds).
Proof.
  split.
  - intros ptrs. by rewrite getAll_spec, add_all_docs.
  - intros mem0 ds.
    destruct (add_new_all_spec ds mem0 new [])
      as [H2 Hnd]; [constructor|constructor|].
    exists (docs (add_new_all ds (mem0, new)).2).
    split; [apply getAll_spec|]. split; [|split; [exact Hnd|exact H2]].
    apply (Forall2_length _ _ _ H2).
Qed.

(** C8: [process] on a collection whose members are live returns the
    collection as it was, so [getAll] gives the same pointers before and
    after, and a second [process] makes on the visitor the same sequence
    of calls as the first. *)
Theorem process_leaves_collection_unchanged :
  forall mem s,
    live mem s ->
    forall S (v : Visitor S) st,
      exists calls s1 st1 s2 st2,
        process v mem s st = Some (s1, st1)
        /\ process v mem s1 st1 = Some (s2, st2)
        /\ s1 = s /\ s2 = s
        /\ (getAll s1).1 = (getAll s).1 /\ (getAll s2).1 = (getAll s).1
        /\ st1 = replay v calls st /\ st2 = replay v calls st1.
Proof.
  intros mem s Hlive S v st.
  destruct (process_replay mem s Hlive) as [calls [_ H]].
  exists calls, s, (replay v calls st), s, (replay v calls (replay v calls st)).
  rewrite !H. repeat split.
Qed.

Lemma process_leaves_collection_unchanged_witness :
  live main_structure.1 main_structure.2
  /\ exists calls s1 st1 s2 st2,
       process DisplayVisitor main_structure.1 main_structure.2 [] = Some (s1, st1)
       /\ process DisplayVisitor main_structure.1 s1 st1 = Some (s2, st2)
       /\ s1 = main_structure.2 /\ s2 = main_structure.2
       /\ (getAll s1).1 = (getAll main_structure.2).1
       /\ (getAll s2).1 = (getAll main_structure.2).1
       /\ st1 = replay DisplayVisitor calls []
       /\ st2 = replay DisplayVisitor calls st1.
Proof.
  split; [exact main_structure_live|].
  apply (process_leaves_collection_unchanged
           main_structure.1 main_structure.2 main_structure_live
           Console DisplayVisitor []).
Defined.

End Visiting.

(** ** The demonstration run *)

Example main_chain_is : main_chain = Some (1%positive, main_chain_heap).
Proof. vm_compute. reflexivity. Qed.

Example main_console :
  main = Some [ Handler.checking_line "PDF";
                Handler.security_line "PDF";
                "[Strategy] Printing PDF document..." +:+ nl;
                "------------------------" +:+ nl;
                "[Visitor] Displaying PDF content." +:+ nl;
                "[Visitor] Displaying TXT content." +:+ nl ].
Proof. vm_compute. reflexivity. Qed.


(** ** Chains of any length *)

Section Chains.
Import Handler.

Implicit Types (h : gmap loc obj) (c : loc) (t : string)
  (ps : list (loc * class)).

Lemma first_lines_cons t pc ps :
  first_lines t (pc :: ps) = first_line t pc.2 :: first_lines t ps.
Proof. reflexivity. Qed.


(** Acceptance along a chain that ends, by induction on the chain. *)
Lemma handle_accepting_chain_aux :
  forall h c ps t,
    walk h c ps None ->
    recognized t = true \/ forallb is_security ps = true ->
    forall (out : Console) depth,
      length ps <= depth ->
      handle depth c t (State h out)
      = Some (true, State h (out ++ first_lines t ps)).
Proof.
  intros h c ps t Hw Hacc.
  remember None as e eqn:He.
  induction Hw as [c o Ho|c o n ps e Ho Hn Hw IH]; intros out depth Hd;
    (destruct depth as [|depth]; [simpl in Hd; lia|]);
    rewrite (handle_unfold depth c t (State h out) o Ho).
  - rewrite He.
    destruct (cls o) eqn:Hk.
    + destruct Hacc as [Ht|Hs]; [|unfold is_security in Hs; discriminate Hs].
      rewrite Ht. reflexivity.
    + reflexivity.
  - rewrite Hn.
    assert (Hacc' : recognized t = true \/ forallb is_security ps = true).
    { destruct Hacc as [Ht|Hs]; [by left|right].
      simpl in Hs. by apply andb_true_iff in Hs as [_ Hs]. }
    assert (Hrest : forall l,
               handle depth n t (State h (out ++ [l]))
               = Some (true, State h (out ++ l :: first_lines t ps))).
    { intros l. rewrite (IH He Hacc' (out ++ [l]) depth); [|simpl in Hd; lia].
      by rewrite <- app_assoc. }
    rewrite first_lines_cons. simpl snd.
    destruct (cls o) eqn:Hk.
    + destruct Hacc as [Ht|Hs]; [|unfold is_security in Hs; discriminate Hs].
      rewrite Ht. apply Hrest.
    + apply Hrest.
Qed.

(** X1: on a chain that ends, a recognized document type, or any type when
    the chain has only [SecurityChecker]s, is accepted: at any depth of at
    least the chain's length [handle] returns [true], the objects are as
    before, and the console gains the first line of every handler of the
    chain, in chain order, and nothing else. *)
Theorem handle_accepting_chain :
  forall h c ps t,
    walk h c ps None ->
    recognized t = true \/ forallb is_security ps = true ->
    forall (out : Console) depth,
      length ps <= depth ->
      handle depth c t (State h out)
      = Some (true, State h (out ++ first_lines t ps)).
Proof.
  intros h c ps t Hw Hacc out depth Hd.
  destruct Hacc as [Ht|Hs].
  - apply (handle_accepting_chain_aux h c ps t Hw (or_introl Ht) out depth Hd).
  - apply (handle_accepting_chain_aux h c ps t Hw (or_intror Hs) out depth Hd).
Qed.

Lemma main_chain_walk :
  walk main_chain_heap 1%positive
    [(1%positive, FormatChecker); (2%positive, SecurityChecker)] None.
Proof.
  apply (walk_cons main_chain_heap 1%positive
           (Obj FormatChecker (Some 2%positive)) 2%positive
           [(2%positive, SecurityChecker)] None);
    [vm_compute; reflexivity|reflexivity|].
  apply (walk_one main_chain_heap 2%positive (Obj SecurityChecker None)).
  vm_compute; reflexivity.
Defined.

Lemma handle_accepting_chain_witness :
  walk main_chain_heap 1%positive
    [(1%positive, FormatChecker); (2%positive, SecurityChecker)] None
  /\ recognized "TXT" = true
  /\ handle 5 1%positive "TXT" (State main_chain_heap [])
     = Some (true, State main_chain_heap
                     [checking_line "TXT"; security_line "TXT"]).
Proof.
  split; [exact main_chain_walk|]. split; [reflexivity|].
  apply (handle_accepting_chain main_chain_heap 1%positive
           [(1%positive, FormatChecker); (2%positive, SecurityChecker)] "TXT"
           main_chain_walk (or_introl eq_refl) [] 5).
  simpl. lia.
Defined.

(** X2: an unrecognized document type is rejected by the first
    [FormatChecker] of a chain: when the handlers before it are all
    [SecurityChecker]s, [handle] returns [false] at any depth reaching it,
    the console gains the lines of those handlers, the checking line and
    the not-supported line, and whatever follows the [FormatChecker], even
    a cycle, is not run. *)
Theorem handle_rejecting_chain :
  forall h ps c f (e : option loc) t,
    walk h c (ps ++ [(f, FormatChecker)]) e ->
    forallb is_security ps = true ->
    recognized t = false ->
    forall (out : Console) depth,
      S (length ps) <= depth ->
      handle depth c t (State h out)
      = Some (false,
              State h (out ++ first_lines t ps
                           ++ [checking_line t; not_supported_line])).
Proof.
  intros h ps. induction ps as [|[p k] ps IH];
    intros c f e t Hw Hs Ht out depth Hd;
    (destruct depth as [|depth]; [lia|]).
  - simpl in Hw. inversion Hw as [c' o Ho|c' o n ps' e' Ho Hn Hw']; subst.
    + rewrite (handle_unfold depth f t (State h out) o Ho).
      match goal with H : cls o = FormatChecker |- _ => rewrite H end.
      rewrite Ht. unfold say, print. simpl. by rewrite <- app_assoc.
    + inversion Hw'.
  - simpl in Hs. apply andb_true_iff in Hs as [Hk Hs].
    unfold is_security in Hk. simpl in Hk, Hw.
    inversion Hw as [c' o Ho|c' o n ps' e' Ho Hn Hw']; subst;
      [by destruct ps|].
    rewrite (handle_unfold depth p t (State h out) o Ho).
    destruct (cls o); [discriminate Hk|]. rewrite Hn.
    unfold say, print. simpl heap. simpl cout.
    rewrite (IH n f e t Hw' Hs Ht (out ++ [security_line t]) depth);
      [|simpl in Hd; lia].
    simpl. by rewrite <- app_assoc.
Qed.

Lemma cyclic_pair_walk :
  walk cyclic_pair_heap 1%positive
    ([(1%positive, SecurityChecker)] ++ [(2%positive, FormatChecker)])
    (Some 1%positive).
Proof.
  apply (walk_cons cyclic_pair_heap 1%positive
           (Obj SecurityChecker (Some 2%positive)) 2%positive
           [(2%positive, FormatChecker)] (Some 1%positive));
    [vm_compute; reflexivity|reflexivity|].
  apply (walk_one cyclic_pair_heap 2%positive
           (Obj FormatChecker (Some 1%positive))).
  vm_compute; reflexivity.
Defined.

Lemma handle_rejecting_chain_witness :
  walk cyclic_pair_heap 1%positive
    ([(1%positive, SecurityChecker)] ++ [(2%positive, FormatChecker)])
    (Some 1%positive)
  /\ recognized "XML" = false
  /\ handle 2 1%positive "XML" (State cyclic_pair_heap [])
     = Some (false,
             State cyclic_pair_heap
               [security_line "XML"; checking_line "XML"; not_supported_line]).
Proof.
  split; [exact cyclic_pair_walk|]. split; [reflexivity|].
  apply (handle_rejecting_chain cyclic_pair_heap
           [(1%positive, SecurityChecker)] 1%positive 2%positive
           (Some 1%positive) "XML" cyclic_pair_walk eq_refl eq_refl [] 2).
  simpl. lia.
Defined.

(** X3: on a cycle of handlers that all pass the document type on (each has
    a next handler in the cycle, and every [FormatChecker] among them
    recognizes the type), [handle] does not return: no bound on the call
    depth gives a result. *)
Theorem handle_never_returns_on_cycle :
  forall h t (P : loc -> Prop),
    (forall c, P c ->
       exists o n, h !! c = Some o /\ next o = Some n /\ P n
                   /\ (cls o = FormatChecker -> recognized t = true)) ->
    forall c, P c ->
      forall depth (out : Console), handle depth c t (State h out) = None.
Proof.
  intros h t P Hcyc c Hc depth. revert c Hc.
  induction depth as [|depth IH]; intros c Hc out; [reflexivity|].
  destruct (Hcyc c Hc) as [o [n [Ho [Hn [HPn Hrec]]]]].
  rewrite (handle_unfold depth c t (State h out) o Ho), Hn.
  destruct (cls o).
  - rewrite (Hrec eq_refl). apply (IH n HPn).
  - apply (IH n HPn).
Qed.

Lemma handle_never_returns_on_cycle_witness :
  (forall c, c = 1%positive ->
     exists o n, self_loop_heap !! c = Some o /\ next o = Some n
                 /\ n = 1%positive
                 /\ (cls o = FormatChecker -> recognized "XML" = true))
  /\ handle 1000 1%positive "XML" (State self_loop_heap []) = None.
Proof.
  assert (Hcyc : forall c, c = 1%positive ->
            exists o n, self_loop_heap !! c = Some o /\ next o = Some n
                        /\ n = 1%positive
                        /\ (cls o = FormatChecker -> recognized "XML" = true)).
  { intros c ->. exists (Obj SecurityChecker (Some 1%positive)), 1%positive.
    split; [vm_compute; reflexivity|]. split; [reflexivity|].
    split; [reflexivity|]. intros Hk. discriminate Hk. }
  split; [exact Hcyc|].
  apply (handle_never_returns_on_cycle self_loop_heap "XML"
           (fun c => c = 1%positive) Hcyc 1%positive eq_refl 1000 []).
Defined.



(** A walk does not depend on the objects it does not meet. *)
Lemma walk_insert_other h c ps e c1 o1 :
  walk h c ps e -> c1 ∉ ps.*1 -> walk (<[c1 := o1]> h) c ps e.
Proof.
  induction 1 as [c o Ho|c o n ps e Ho Hn _ IH]; intros Hnot;
    simpl in Hnot; apply not_elem_of_cons in Hnot as [Hne Hnot].
  - apply walk_one. by rewrite lookup_insert_ne.
  - eapply walk_cons; [by rewrite lookup_insert_ne|exact Hn|by apply IH].
Qed.

(** X5: [setNext] puts a handler in front of a chain: when the chain that
    ends from [c2] does not pass through the handler [c1], after
    [c1->setNext(c2)] the chain from [c1] is [c1] followed by that chain and
    ends as it did, so [handle] on [c1] accepts a recognized type with the
    line of [c1] first and then the lines of the chain. *)
Theorem setNext_prepends_to_chain :
  forall h c1 o1 c2 ps,
    h !! c1 = Some o1 ->
    walk h c2 ps None ->
    c1 ∉ ps.*1 ->
    exists h',
      setNext (Some c2) c1 h = Some h'
      /\ walk h' c1 ((c1, cls o1) :: ps) None
      /\ forall t (out : Console) depth,
           recognized t = true ->
           S (length ps) <= depth ->
           handle depth c1 t (State h' out)
           = Some (true,
                   State h' (out ++ first_line t (cls o1) :: first_lines t ps)).
Proof.
  intros h c1 o1 c2 ps H1 Hw Hnot.
  exists (<[c1 := Obj (cls o1) (Some c2)]> h).
  assert (Hw' : walk (<[c1 := Obj (cls o1) (Some c2)]> h) c1
                  ((c1, cls o1) :: ps) None).
  { apply (walk_cons _ c1 (Obj (cls o1) (Some c2)) c2 ps None);
      [apply lookup_insert_eq|reflexivity|].
    by apply walk_insert_other. }
  split; [unfold setNext; by rewrite H1|]. split; [exact Hw'|].
  intros t out depth Ht Hd.
  destruct depth as [|depth]; [lia|].
  rewrite (handle_unfold depth c1 t (State _ out) _ (lookup_insert_eq _ _ _)).
  simpl next. simpl cls.
  assert (Hrest : forall l,
             handle depth c2 t
               (State (<[c1 := Obj (cls o1) (Some c2)]> h) (out ++ [l]))
             = Some (true, State (<[c1 := Obj (cls o1) (Some c2)]> h)
                             (out ++ l :: first_lines t ps))).
  { intros l.
    pose proof (walk_insert_other h c2 ps None c1 (Obj (cls o1) (Some c2))
                  Hw Hnot) as Hw2.
    rewrite (handle_accepting_chain_aux _ _ _ t Hw2 (or_introl Ht)
               (out ++ [l]) depth); [|lia].
    by rewrite <- app_assoc. }
  destruct (cls o1); [rewrite Ht|]; apply Hrest.
Qed.

Lemma setNext_prepends_to_chain_witness :
  main_chain_heap !! 1%positive = Some (Obj FormatChecker (Some 2%positive))
  /\ walk main_chain_heap 2%positive [(2%positive, SecurityChecker)] None
  /\ (1%positive ∉ [(2%positive, SecurityChecker)].*1)
  /\ exists h',
       setNext (Some 2%positive) 1%positive main_chain_heap = Some h'
       /\ walk h' 1%positive
            [(1%positive, FormatChecker); (2%positive, SecurityChecker)] None
       /\ forall t (out : Console) depth,
            recognized t = true ->
            2 <= depth ->
            handle depth 1%positive t (State h' out)
            = Some (true,
                    State h' (out ++ [checking_line t; security_line t])).
Proof.
  assert (H1 : main_chain_heap !! 1%positive
               = Some (Obj FormatChecker (Some 2%positive)))
    by (vm_compute; reflexivity).
  assert (Hw : walk main_chain_heap 2%positive
                 [(2%positive, SecurityChecker)] None).
  { apply (walk_one main_chain_heap 2%positive (Obj SecurityChecker None)).
    vm_compute; reflexivity. }
  assert (Hnot : 1%positive ∉ ([(2%positive, SecurityChecker)].*1)).
  { simpl. intros Hin. apply list_elem_of_singleton in Hin. discriminate Hin. }
  split; [exact H1|]. split; [exact Hw|]. split; [exact Hnot|].
  apply (setNext_prepends_to_chain main_chain_heap 1%positive
           (Obj FormatChecker (Some 2%positive)) 2%positive
           [(2%positive, SecurityChecker)] H1 Hw Hnot).
Defined.



End Chains.

(** ** Strategies, observed *)

Section Strategies.
Import DocumentProcessor.

Lemma string_length_app (s1 s2 : string) :
  String.length (s1 +:+ s2) = String.length s1 + String.length s2.
Proof. induction s1 as [|a s1 IH]; simpl; [done|]. by rewrite IH. Qed.

Lemma string_app_cancel_r (s t1 t2 : string) :
  t1 +:+ s = t2 +:+ s -> t1 = t2.
Proof.
  revert t2. induction t1 as [|a t1 IH]; intros [|b t2] H; simpl in H.
  - done.
  - apply (f_equal String.length) in H.
    rewrite ?string_length_app in H. simpl in H.
    rewrite ?string_length_app in H. lia.
  - apply (f_equal String.length) in H.
    rewrite ?string_length_app in H. simpl in H.
    rewrite ?string_length_app in H. lia.
  - injection H as -> H. f_equal. by apply IH.
Qed.

Lemma print_inj (l1 l2 : string) (out : Console) :
  print l1 out = print l2 out -> l1 = l2.
Proof. unfold print. intros H. apply app_inv_head in H. by injection H. Qed.

(** X7: the two strategies of the program always complete, append one line
    to the console and leave what was written before in place; the line of
    [PrintStrategy] is never a line of [SaveStrategy], whatever the document
    types; and the line written determines the document type. *)
Theorem strategies_are_observable :
  forall (p : t) (docType : string) (out : Console),
    (exists l1 l2,
       executeStrategy docType (setStrategy (Some PrintStrategy) p) out
       = Some (out ++ [l1])
       /\ executeStrategy docType (setStrategy (Some SaveStrategy) p) out
          = Some (out ++ [l2])
       /\ forall t' p' l2',
            executeStrategy t' (setStrategy (Some SaveStrategy) p') out
            = Some (out ++ [l2']) -> l1 <> l2')
    /\ (forall t',
          executeStrategy t' (setStrategy (Some PrintStrategy) p) out
          = executeStrategy docType (setStrategy (Some PrintStrategy) p) out ->
          t' = docType)
    /\ (forall t',
          executeStrategy t' (setStrategy (Some SaveStrategy) p) out
          = executeStrategy docType (setStrategy (Some SaveStrategy) p) out ->
          t' = docType).
Proof.
  intros p docType out. split; [|split].
  - eexists _, _. split; [reflexivity|]. split; [reflexivity|].
    intros t' p' l2' H. unfold executeStrategy in H. simpl in H.
    injection H as H. apply print_inj in H. subst l2'. discriminate.
  - intros t' H. unfold executeStrategy in H. simpl in H.
    injection H as H. apply print_inj in H.
    apply (inj (String.app "[Strategy] Printing ")) in H.
    by apply string_app_cancel_r in H.
  - intros t' H. unfold executeStrategy in H. simpl in H.
    injection H as H. apply print_inj in H.
    apply (inj (String.app "[Strategy] Saving ")) in H.
    by apply string_app_cancel_r in H.
Qed.

Lemma strategies_are_observable_witness :
  executeStrategy "PDF" (setStrategy (Some PrintStrategy) new) []
  = executeStrategy "PDF" (setStrategy (Some PrintStrategy) new) []
  /\ "PDF" = "PDF".
Proof.
  split; [reflexivity|].
  apply (proj1 (proj2 (strategies_are_observable new "PDF" [])) "PDF").
  reflexivity.
Defined.

End Strategies.

(** ** The collection, further *)

Section Collections.
Import DocumentStructure.

Implicit Types (mem : gmap loc Document) (s : t) (doc : option loc).

Lemma process_loop_app {S} (v : Visitor S) mem ds1 ds2 (st : S) :
  process_loop v mem (ds1 ++ ds2) st
  = process_loop v mem ds1 st ≫= process_loop v mem ds2.
Proof.
  revert st. induction ds1 as [|doc ds1 IH]; intros st; [done|].
  simpl. destruct doc as [p|]; [|done]. simpl.
  destruct (mem !! p) as [d|]; [|done]. simpl. apply IH.
Qed.

Lemma process_loop_is_Some {S} (v : Visitor S) mem ds (st : S) :
  is_Some (process_loop v mem ds st)
  <-> Forall (fun doc => exists d, points_to mem doc d) ds.
Proof.
  revert st. induction ds as [|doc ds IH]; intros st; simpl.
  - split; [constructor|eauto].
  - rewrite Forall_cons. destruct doc as [p|]; simpl.
    + destruct (mem !! p) as [d|] eqn:Hp; simpl.
      * rewrite IH. split; [|tauto].
        intros H. split; [|exact H]. exists d, p. done.
      * split; [by intros [? ?]|].
        intros [[d [p' [[= <-] Hp']]] _]. congruence.
    + split; [by intros [? ?]|].
      intros [[d [p' [[=] _]]] _].
Qed.

(** X8: [DisplayVisitor] over a collection whose members point to live
    documents writes one line per member, in insertion order, naming the
    type [getType] returns for that member, and nothing else. *)
Theorem process_display_lines :
  forall mem s (ds : list Document) (out : Console),
    Forall2 (points_to mem) (docs s) ds ->
    process DisplayVisitor mem s out
    = Some (s, out ++ map display_line ds).
Proof.
  intros mem s ds out H2. unfold process.
  assert (Hloop : process_loop DisplayVisitor mem (docs s) out
                  = Some (out ++ map display_line ds)).
  { revert out. induction H2 as [|doc d docs' ds' [p [-> Hp]] _ IH]; intros out.
    - simpl. by rewrite app_nil_r.
    - simpl. rewrite Hp. simpl.
      rewrite (IH (accept d p DisplayVisitor out)).
      destruct d; simpl; unfold print; by rewrite <- app_assoc. }
  by rewrite Hloop.
Qed.

Lemma main_structure_points_to :
  Forall2 (points_to main_structure.1) (docs main_structure.2)
          [PDFDocument; TXTDocument].
Proof.
  repeat constructor.
  - exists 1%positive. split; vm_compute; reflexivity.
  - exists 2%positive. split; vm_compute; reflexivity.
Defined.

Lemma process_display_lines_witness :
  Forall2 (points_to main_structure.1) (docs main_structure.2)
          [PDFDocument; TXTDocument]
  /\ process DisplayVisitor main_structure.1 main_structure.2 []
     = Some (main_structure.2,
             [display_line PDFDocument; display_line TXTDocument]).
Proof.
  split; [exact main_structure_points_to|].
  apply (process_display_lines main_structure.1 main_structure.2
           [PDFDocument; TXTDocument] [] main_structure_points_to).
Defined.

(** X9: [process] completes exactly when every member of the collection is
    a non-null pointer to a live document; in particular a null pointer
    passed to [add] makes every later [process] fail, whatever the
    visitor. *)
Theorem process_completes_iff_live :
  forall S (v : Visitor S) mem s (st : S),
    (is_Some (process v mem s st) <-> live mem s)
    /\ forall ptrs, process v mem (add_all (None :: ptrs) s) st = None.
Proof.
  intros S v mem s st. split.
  - unfold process, live. rewrite <- (process_loop_is_Some v mem (docs s) st).
    destruct (process_loop v mem (docs s) st) as [st1|]; simpl.
    + split; intros _; [exists st1|exists (s, st1)]; reflexivity.
    + split; intros [x Hx]; discriminate Hx.
  - intros ptrs. unfold process.
    change (add_all (None :: ptrs) s) with (add_all ptrs (add None s)).
    rewrite add_all_docs. simpl docs.
    rewrite <- app_assoc, process_loop_app.
    destruct (process_loop v mem (docs s) st); reflexivity.
Qed.

Lemma process_completes_iff_live_witness :
  live main_structure.1 main_structure.2
  /\ is_Some (process DisplayVisitor main_structure.1 main_structure.2 []).
Proof.
  split; [exact main_structure_live|].
  apply (proj2 (proj1 (process_completes_iff_live Console DisplayVisitor
                         main_structure.1 main_structure.2 []))).
  exact main_structure_live.
Defined.

(** X10: [add] appends: after [add], [getAll] returns the pointers it
    returned before followed by the new one, even when the pointer is
    already a member, so the count grows by one with every call. *)
Theorem getAll_after_add :
  forall doc s,
    (getAll (add doc s)).1 = (getAll s).1 ++ [doc]
    /\ length (getAll (add doc s)).1 = S (length (getAll s).1)
    /\ (getAll (add doc (add doc s))).1 = (getAll s).1 ++ [doc; doc].
Proof.
  intros doc s. rewrite !getAll_spec. simpl.
  split; [done|]. split; [rewrite length_app; simpl; lia|].
  by rewrite <- app_assoc.
Qed.

(** X11: visiting after [add] is visiting before [add] and then the new
    member: when the pointer added is to a live document, [process] on the
    grown collection is [process] on the old one followed by the [accept] of
    the new document, and it fails when that fails. *)
Theorem process_after_add :
  forall S (v : Visitor S) mem s (st : S) p d,
    mem !! p = Some d ->
    process v mem (add (Some p) s) st
    = match process v mem s st with
      | Some (_, st1) => Some (add (Some p) s, accept d p v st1)
      | None => None
      end.
Proof.
  intros S v mem s st p d Hp. unfold process. simpl docs.
  rewrite process_loop_app.
  destruct (process_loop v mem (docs s) st) as [st1|]; simpl; [|done].
  by rewrite Hp.
Qed.

Lemma process_after_add_witness :
  main_structure.1 !! 1%positive = Some PDFDocument
  /\ process RecordingVisitor main_structure.1
       (add (Some 1%positive) main_structure.2) []
     = Some (add (Some 1%positive) main_structure.2,
             [VisitPDF 1%positive; VisitTXT 2%positive; VisitPDF 1%positive]).
Proof.
  assert (Hp : main_structure.1 !! 1%positive = Some PDFDocument)
    by (vm_compute; reflexivity).
  split; [exact Hp|].
  apply (process_after_add (list visit_call) RecordingVisitor
           main_structure.1 main_structure.2 [] 1%positive PDFDocument Hp).
Defined.

(** X12: making a new document does not disturb a collection: when the
    members of a collection are live, [process] on it gives the same result
    after [std::make_unique] has created another document, and the new
    pointer is non-null and is not one of the members. *)
Theorem process_after_make_unique :
  forall S (v : Visitor S) mem s (st : S) d,
    live mem s ->
    process v (make_unique d mem).2 s st = process v mem s st
    /\ (exists p, (make_unique d mem).1 = Some p
                  /\ (make_unique d mem).2 !! p = Some d)
    /\ (make_unique d mem).1 ∉ docs s.
Proof.
  intros S v mem s st d Hlive. split; [|split].
  - unfold process. f_equal. revert st.
    induction Hlive as [|doc ds [d' [p [-> Hp]]] _ IH]; intros st; [done|].
    simpl. rewrite Hp. simpl.
    rewrite lookup_insert_ne.
    + rewrite Hp. simpl. apply IH.
    + intros Heq. pose proof (is_fresh (dom mem)) as Hf.
      apply not_elem_of_dom in Hf. congruence.
  - exists (fresh (dom mem)). split; [done|]. simpl. apply lookup_insert_eq.
  - simpl. intros Hin. unfold live in Hlive.
    rewrite Forall_forall in Hlive.
    destruct (Hlive _ Hin) as [d' [p [[= <-] Hp]]].
    pose proof (is_fresh (dom mem)) as Hf.
    apply not_elem_of_dom in Hf. congruence.
Qed.

Lemma process_after_make_unique_witness :
  live main_structure.1 main_structure.2
  /\ process DisplayVisitor (make_unique TXTDocument main_structure.1).2
       main_structure.2 []
     = process DisplayVisitor main_structure.1 main_structure.2 [].
Proof.
  split; [exact main_structure_live|].
  apply (proj1 (process_after_make_unique Console DisplayVisitor
                  main_structure.1 main_structure.2 [] TXTDocument
                  main_structure_live)).
Defined.

(** X13: the type of every document class is one the [FormatChecker]
    recognizes, so the chain accepts it, while "DOCX", which the chain
    also accepts, is the type of no document class; and different classes
    have different types. *)
Theorem getType_is_recognized :
  forall d : Document,
    Handler.recognized (getType d) = true
    /\ (forall out : Console,
          Handler.handle 2 1%positive (getType d)
            (Handler.State main_chain_heap out)
          = Some (true,
                  Handler.State main_chain_heap
                    (out ++ [Handler.checking_line (getType d);
                             Handler.security_line (getType d)])))
    /\ Handler.recognized "DOCX" = true
    /\ String.eqb (getType d) "DOCX" = false
    /\ String.eqb (getType PDFDocument) (getType TXTDocument) = false.
Proof.
  intros d. split; [by destruct d|]. split.
  - intros out.
    rewrite (handle_unfold 1 1%positive (getType d)
               (Handler.State main_chain_heap out)
               (Handler.Obj Handler.FormatChecker (Some 2%positive)));
      [|vm_compute; reflexivity].
    simpl Handler.cls. simpl Handler.next.
    replace (Handler.recognized (getType d)) with true by (by destruct d).
    rewrite (handle_unfold 0 2%positive (getType d) _
               (Handler.Obj Handler.SecurityChecker None));
      [|vm_compute; reflexivity].
    simpl. unfold Handler.say, print. simpl. by rewrite <- app_assoc.
  - split; [reflexivity|]. split; [by destruct d|reflexivity].
Qed.

End Collections.
